(** * text_analyzer/main.py: a shallow embedding and its properties

    The program reads one text file, computes four statistics over the decoded
    text (number of characters, number of lines, number of empty lines and a
    per-character frequency table) and prints the ones that the command line
    flags select.

    Layout of this file:
    - Python values: [str] as a list of code points, [int] as [nat],
      [dict] as an insertion-ordered association list;
    - the built-ins that the program calls: [len], [str.count], [dict.get],
      item assignment, [any], the formatting of an [int];
    - effects: a small monad threading the standard output and an uncaught
      exception;
    - [analyze_text] and the [__main__] block;
    - the properties. *)

From Stdlib Require Import List NArith Arith Bool Lia Ascii String DecimalString.
From Stdlib Require Import Permutation.
Import ListNotations.

(** ** Python values *)

(** A character of a Python [str] is a Unicode code point. *)
Definition char : Type := N.

(** A Python [str]: the sequence of its code points. *)
Definition str : Type := list char.

Definition ord (a : ascii) : char := N_of_ascii a.

(** A string literal of the source, as a [str]. *)
Fixpoint lit (s : string) : str :=
  match s with
  | EmptyString => []
  | String a s' => ord a :: lit s'
  end.

(** The character written ['\n'] in the source. *)
Definition NL : char := 10%N.

Definition char_eqb : char -> char -> bool := N.eqb.

(** [len(s)]. *)
Definition len (s : str) : nat := List.length s.

(** [s.startswith(sub)]: [sub] is found at the very start of [s]. *)
Fixpoint startswith (s sub : str) {struct sub} : bool :=
  match sub with
  | [] => true
  | b :: sub' =>
      match s with
      | [] => false
      | a :: s' => char_eqb a b && startswith s' sub'
      end
  end.

(** The scan behind [s.count(sub)] for a non-empty [sub]: it walks [s] from the
    left; [skip] is the number of characters of the last match that are still
    to be stepped over, so that a new match can only start once the previous
    one is wholly behind. *)
Fixpoint count_scan (sub s : str) (skip : nat) : nat :=
  match s with
  | [] => 0
  | _ :: s' =>
      match skip with
      | S k => count_scan sub s' k
      | O =>
          if startswith s sub
          then S (count_scan sub s' (len sub - 1))
          else count_scan sub s' 0
      end
  end.

(** [s.count(sub)]: the number of non-overlapping occurrences of [sub] in [s];
    the empty [sub] is found between any two characters and at both ends. *)
Definition str_count (s sub : str) : nat :=
  match sub with
  | [] => S (len s)
  | _ :: _ => count_scan sub s 0
  end.

(** [f"{n}"] for a non-negative [int]: its decimal digits. *)
Definition format_int (n : nat) : str :=
  lit (NilEmpty.string_of_uint (Nat.to_uint n)).

(** [any(flags)]. *)
Definition any (flags : list bool) : bool := existsb (fun b => b) flags.

(** ** Dictionaries

    A Python [dict] keeps its items in insertion order, and assigning to a key
    that is already present keeps the key where it is. *)
Definition dict : Type := list (char * nat).

(** [d.get(k, default)]. *)
Fixpoint dict_get (d : dict) (k : char) (default : nat) : nat :=
  match d with
  | [] => default
  | (k', v') :: d' => if char_eqb k' k then v' else dict_get d' k default
  end.

(** [d[k] = v]. *)
Fixpoint dict_set (d : dict) (k : char) (v : nat) : dict :=
  match d with
  | [] => [(k, v)]
  | (k', v') :: d' =>
      if char_eqb k' k then (k', v) :: d' else (k', v') :: dict_set d' k v
  end.

(** [d.keys()], [d.values()] and [d.items()], in iteration order. *)
Definition keys (d : dict) : list char := map fst d.
Definition values (d : dict) : list nat := map snd d.
Definition items (d : dict) : list (char * nat) := d.

(** [sum(d.values())]. *)
Definition sum (l : list nat) : nat := list_sum l.

(** ** The statistics record

    The dictionary that [analyze_text] returns, with its four fixed keys
    ["chars"], ["lines"], ["empty_lines"] and ["freq"]. *)
Record stats : Type := mkStats {
  chars : nat;
  lines : nat;
  empty_lines : nat;
  freq : dict
}.

(** ** Effects: standard output and exceptions *)

(** The exceptions that the modelled part of the program can raise. *)
Inductive exn : Type :=
| TypeError          (* subscripting [None] *)
| IsADirectoryError  (* [open] on a directory *)
| FileNotFoundError  (* [open] on a path that names nothing *)
| PermissionError    (* [open] on a file that may not be read *)
| UnicodeDecodeError. (* [read] on bytes that are not UTF-8 *)

Inductive outcome (A : Type) : Type :=
| Returned (a : A)
| Raised (e : exn).
Arguments Returned {A} a.
Arguments Raised {A} e.

(** A computation takes what has been written to the standard output so far and
    gives its outcome with the output extended. *)
Definition M (A : Type) : Type := str -> outcome A * str.

Definition ret {A} (a : A) : M A := fun out => (Returned a, out).

Definition bind {A B} (m : M A) (k : A -> M B) : M B :=
  fun out =>
    match m out with
    | (Returned a, out') => k a out'
    | (Raised e, out') => (Raised e, out')
    end.

Definition raise {A} (e : exn) : M A := fun out => (Raised e, out).

(** [print(s)]: [s] and a newline go to the standard output. The standard
    output is taken to encode every character, as Python's default UTF-8
    output does for every text decoded from UTF-8; the output is kept as
    characters. *)
Definition print (s : str) : M unit := fun out => (Returned tt, out ++ s ++ [NL]).

Notation "x <- m ;; k" := (bind m (fun x => k))
  (at level 61, m at next level, right associativity).
Notation "m ;; k" := (bind m (fun _ => k))
  (at level 61, right associativity).

(** [if b: body]. *)
Definition when (b : bool) (body : M unit) : M unit :=
  if b then body else ret tt.

(** A run of the program starts with nothing printed. *)
Definition run {A} (m : M A) : outcome A * str := m [].

(** The process ends normally when no exception escapes. *)
Definition terminates_normally {A} (r : outcome A * str) : bool :=
  match fst r with
  | Returned _ => true
  | Raised _ => false
  end.

(** What the standard output holds after [print(s)] alone. *)
Definition printed (s : str) : str := s ++ [NL].

(** ** The file system

    A path names nothing or something that exists. What exists is a file that
    can be opened and read as text, given by the text that [file.read()]
    returns for it (decoded, as the program sees it); or a directory; or
    something else that [open] or [read] rejects with the exception [e]: a
    file without read permission ([PermissionError]), a file whose bytes are
    not valid UTF-8 ([UnicodeDecodeError]). *)
Inductive node : Type :=
| File (text : str)
| Dir
| Unreadable (e : exn).

Definition filesystem : Type := str -> option node.

(** [os.path.exists(path)]. *)
Definition path_exists (fs : filesystem) (path : str) : bool :=
  match fs path with
  | Some _ => true
  | None => false
  end.

(** [open(path, 'r', encoding='utf-8')] followed by [file.read()]. *)
Definition read_file (fs : filesystem) (path : str) : M str :=
  match fs path with
  | Some (File text) => ret text
  | Some Dir => raise IsADirectoryError
  | Some (Unreadable e) => raise e
  | None => raise FileNotFoundError
  end.

(** ** analyze_text *)

(** The body of the loop at lines 17-18:
    [char_freq[char] = char_freq.get(char, 0) + 1]. *)
Definition count_char (char_freq : dict) (c : char) : dict :=
  dict_set char_freq c (dict_get char_freq c 0 + 1).

(** Lines 12-25 of [analyze_text]: the statistics of the text read. *)
Definition analyze (text : str) : stats :=
  let num_chars := len text in
  let num_empty_lines := str_count text [NL; NL] in
  let num_lines := str_count text [NL] + 1 in
  let char_freq := fold_left count_char text [] in
  {| chars := num_chars;
     lines := num_lines;
     empty_lines := num_empty_lines;
     freq := char_freq |}.

(** [analyze_text(file_path)]: [None] after a message when the path does not
    exist, the statistics of the file otherwise. *)
Definition analyze_text (fs : filesystem) (file_path : str) : M (option stats) :=
  if negb (path_exists fs file_path) then
    print (lit "File not found: " ++ file_path) ;;
    ret None
  else
    text <- read_file fs file_path ;;
    ret (Some (analyze text)).

(** ** The main block *)

(** The namespace that [parser.parse_args()] returns: the positional
    [file_path] and the four [store_true] flags. *)
Record namespace : Type := mkArgs {
  file_path : str;
  count_lines : bool;
  count_chars : bool;
  count_empty_lines : bool;
  count_freq : bool
}.

(** [stats[key]], where [stats] is what [analyze_text] returned: subscripting
    [None] raises [TypeError]. *)
Definition subscript {A} (st : option stats) (key : stats -> A) : M A :=
  match st with
  | Some s => ret (key s)
  | None => raise TypeError
  end.

(** The body of [for char, freq in ...items(): print(f"'{char}': {freq}")]. *)
Fixpoint print_items (its : list (char * nat)) : M unit :=
  match its with
  | [] => ret tt
  | (c, n) :: rest =>
      print (lit "'" ++ [c] ++ lit "': " ++ format_int n) ;;
      print_items rest
  end.

Definition print_lines (st : option stats) : M unit :=
  n <- subscript st lines ;;
  print (lit "Number of lines: " ++ format_int n).

Definition print_chars (st : option stats) : M unit :=
  n <- subscript st chars ;;
  print (lit "Number of characters: " ++ format_int n).

Definition print_empty_lines (st : option stats) : M unit :=
  n <- subscript st empty_lines ;;
  print (lit "Number of empty lines: " ++ format_int n).

Definition print_freq (st : option stats) : M unit :=
  print (lit "Character frequency:") ;;
  d <- subscript st freq ;;
  print_items (items d).

(** Lines 40-59: the statements of the main block that follow the call of
    [analyze_text], which returned [st]. *)
Definition after_analysis (args : namespace) (st : option stats) : M unit :=
  when (count_lines args) (print_lines st) ;;
  when (count_chars args) (print_chars st) ;;
  when (count_empty_lines args) (print_empty_lines st) ;;
  when (count_freq args) (print_freq st) ;;
  when (negb (any [count_lines args; count_chars args;
                   count_empty_lines args; count_freq args]))
    (print_chars st ;;
     print_lines st ;;
     print_empty_lines st ;;
     print_freq st).

(** Lines 36-59: the statements after the parser has run:
    [stats = analyze_text(args.file_path)], then the printing. *)
Definition main (fs : filesystem) (args : namespace) : M unit :=
  st <- analyze_text fs (file_path args) ;;
  after_analysis args st.

(** ** Reference notions used by the properties *)

(** The number of characters of [s] equal to [c]. *)
Definition occurrences (c : char) (s : str) : nat :=
  count_occ N.eq_dec s c.

(** The non-overlapping count of two consecutive newlines, read off its
    description: whenever the next two characters are both newlines this is one
    occurrence and the scan resumes after the second one; otherwise the scan
    moves one character on. *)
Fixpoint double_newlines (s : str) : nat :=
  match s with
  | a :: ((b :: rest) as s') =>
      if char_eqb a NL && char_eqb b NL
      then S (double_newlines rest)
      else double_newlines s'
  | _ => 0
  end.

(** Membership in a list of characters, as a boolean. *)
Definition mem (c : char) (l : list char) : bool := existsb (char_eqb c) l.

(** The distinct characters of [s] in the order of their first occurrence. *)
Fixpoint first_occurrences (s : str) : list char :=
  match s with
  | [] => []
  | c :: s' => c :: filter (fun x => negb (char_eqb x c)) (first_occurrences s')
  end.

(** ** What a run prints for an existing file *)

(** The line of one item of the frequency table. *)
Definition item_line (it : char * nat) : str :=
  printed (lit "'" ++ [fst it] ++ lit "': " ++ format_int (snd it)).

Definition lines_report (s : stats) : str :=
  printed (lit "Number of lines: " ++ format_int (lines s)).

Definition chars_report (s : stats) : str :=
  printed (lit "Number of characters: " ++ format_int (chars s)).

Definition empty_lines_report (s : stats) : str :=
  printed (lit "Number of empty lines: " ++ format_int (empty_lines s)).

Definition freq_report (s : stats) : str :=
  printed (lit "Character frequency:") ++ List.concat (map item_line (items (freq s))).

(** The whole output for the record [s], by the flags. *)
Definition selected_output (args : namespace) (s : stats) : str :=
  (if count_lines args then lines_report s else []) ++
  (if count_chars args then chars_report s else []) ++
  (if count_empty_lines args then empty_lines_report s else []) ++
  (if count_freq args then freq_report s else []) ++
  (if negb (any [count_lines args; count_chars args;
                 count_empty_lines args; count_freq args])
   then chars_report s ++ lines_report s ++ empty_lines_report s ++ freq_report s
   else []).

(** ** Inputs used in examples *)

(** The text ["hi\nworld"]. *)
Definition hi_world : str := lit "hi" ++ [NL] ++ lit "world".

(** The text ["a\n\n\nb"]. *)
Definition a_nnn_b : str := lit "a" ++ [NL; NL; NL] ++ lit "b".

(** A file system with the single file [data.txt] holding [text]. *)
Definition single_file (text : str) : filesystem :=
  fun path => if list_eq_dec N.eq_dec path (lit "data.txt") then Some (File text) else None.

(** The empty file system. *)
Definition no_files : filesystem := fun _ => None.

(** Command lines used in examples: [data.txt] with no flag, and with
    [--count-chars --count-lines]. *)
Definition args_plain : namespace :=
  {| file_path := lit "data.txt";
     count_lines := false; count_chars := false;
     count_empty_lines := false; count_freq := false |}.

Definition args_chars_lines : namespace :=
  {| file_path := lit "data.txt";
     count_lines := true; count_chars := true;
     count_empty_lines := false; count_freq := false |}.

(** ** Further reference notions and inputs *)

(** The number of places of [s] where two newlines stand side by side, each
    place counted (so three newlines in a row give two). *)
Fixpoint adjacent_newlines (s : str) : nat :=
  match s with
  | a :: ((b :: _) as s') =>
      (if char_eqb a NL && char_eqb b NL then 1 else 0) + adjacent_newlines s'
  | _ => 0
  end.

(** The items that a frequency table of [s] should hold: each distinct
    character with its number of occurrences, in first-occurrence order. *)
Definition counted_characters (s : str) : list (char * nat) :=
  map (fun c => (c, occurrences c s)) (first_occurrences s).

(** The record of a text written with the reference notions alone: the
    length, the newline characters plus one, the non-overlapping pairs of
    newlines, and the distinct characters in first-occurrence order with
    their numbers of occurrences. *)
Definition reference_record (s : str) : stats :=
  {| chars := List.length s;
     lines := occurrences NL s + 1;
     empty_lines := double_newlines s;
     freq := counted_characters s |}.

(** [data.txt] with all four flags, and with [--count-freq] alone. *)
Definition args_all : namespace :=
  {| file_path := lit "data.txt";
     count_lines := true; count_chars := true;
     count_empty_lines := true; count_freq := true |}.

Definition args_freq : namespace :=
  {| file_path := lit "data.txt";
     count_lines := false; count_chars := false;
     count_empty_lines := false; count_freq := true |}.

(** A file system in which every path names a directory. *)
Definition only_directories : filesystem := fun _ => Some Dir.

(** * Properties *)

(** ** The scans of [str.count] *)

Section Counting.

Lemma char_eqb_eq (a b : char) : char_eqb a b = true <-> a = b.
Proof. apply N.eqb_eq. Qed.

Lemma char_eqb_neq (a b : char) : char_eqb a b = false <-> a <> b.
Proof. apply N.eqb_neq. Qed.

Lemma char_eqb_sym (a b : char) : char_eqb a b = char_eqb b a.
Proof. apply N.eqb_sym. Qed.

Lemma occurrences_cons (c a : char) (s : str) :
  occurrences c (a :: s) = (if char_eqb a c then 1 else 0) + occurrences c s.
Proof.
  unfold occurrences; simpl.
  destruct (N.eq_dec a c) as [e | n].
  - apply char_eqb_eq in e; now rewrite e.
  - apply char_eqb_neq in n; now rewrite n.
Qed.

Lemma occurrences_le_len (c : char) (s : str) : occurrences c s <= len s.
Proof. apply count_occ_bound. Qed.

(** A step of the scan while part of a match is still to be passed. *)
Lemma count_scan_skip (sub : str) (a : char) (s : str) (k : nat) :
  count_scan sub (a :: s) (S k) = count_scan sub s k.
Proof. reflexivity. Qed.

(** Counting a one-character pattern counts the character. *)
Lemma count_scan_single (c : char) (s : str) :
  count_scan [c] s 0 = occurrences c s.
Proof.
  induction s as [| a s IH]; [reflexivity |].
  rewrite occurrences_cons.
  change (count_scan [c] (a :: s) 0)
    with (if char_eqb a c && true
          then S (count_scan [c] s 0)
          else count_scan [c] s 0).
  rewrite andb_true_r, IH.
  now destruct (char_eqb a c).
Qed.

Lemma str_count_single (c : char) (s : str) :
  str_count s [c] = occurrences c s.
Proof. apply count_scan_single. Qed.

(** The scan for two newlines, in both of its states: between matches it
    agrees with [double_newlines]; with one character of a match left to
    pass it agrees with [double_newlines] of the text after that one. *)
Lemma count_scan_double (s : str) :
  count_scan [NL; NL] s 0 = double_newlines s
  /\ count_scan [NL; NL] s 1 = double_newlines (tl s).
Proof.
  induction s as [| a s [IH0 IH1]]; [now split |].
  split; [| exact IH0].
  destruct s as [| b rest].
  - simpl. now rewrite andb_false_r.
  - change (count_scan [NL; NL] (a :: b :: rest) 0)
      with (if char_eqb a NL && (char_eqb b NL && true)
            then S (count_scan [NL; NL] (b :: rest) 1)
            else count_scan [NL; NL] (b :: rest) 0).
    change (double_newlines (a :: b :: rest))
      with (if char_eqb a NL && char_eqb b NL
            then S (double_newlines rest)
            else double_newlines (b :: rest)).
    rewrite andb_true_r, IH0, IH1. reflexivity.
Qed.

Lemma str_count_double (s : str) :
  str_count s [NL; NL] = double_newlines s.
Proof. apply count_scan_double. Qed.

(** Each counted pair of newlines uses up two newline characters. *)
Lemma double_newlines_bound (s : str) :
  2 * double_newlines s <= occurrences NL s
  /\ 2 * double_newlines (tl s) <= occurrences NL (tl s).
Proof.
  induction s as [| a s [IH0 IH1]]; [simpl; lia |].
  split; [| exact IH0].
  destruct s as [| b rest]; [simpl; lia |].
  change (double_newlines (a :: b :: rest))
    with (if char_eqb a NL && char_eqb b NL
          then S (double_newlines rest)
          else double_newlines (b :: rest)).
  rewrite (occurrences_cons NL a (b :: rest)).
  simpl tl in IH1.
  destruct (char_eqb a NL) eqn:Ea; simpl andb.
  - destruct (char_eqb b NL) eqn:Eb.
    + rewrite occurrences_cons, Eb. lia.
    + lia.
  - lia.
Qed.

End Counting.

(** ** The frequency dictionary *)

Section Frequency.

Lemma mem_In (c : char) (l : list char) : mem c l = true <-> In c l.
Proof.
  unfold mem. rewrite existsb_exists. split.
  - intros [x [Hin Heq]]. apply char_eqb_eq in Heq. now subst.
  - intros Hin. exists c. split; [assumption | now apply char_eqb_eq].
Qed.

Lemma mem_app (c : char) (l1 l2 : list char) :
  mem c (l1 ++ l2) = mem c l1 || mem c l2.
Proof. apply existsb_app. Qed.

Lemma filter_twice {A} (p q : A -> bool) (l : list A) :
  filter p (filter q l) = filter (fun x => q x && p x) l.
Proof.
  induction l as [| a l IH]; [reflexivity |].
  simpl. destruct (q a); simpl; [destruct (p a) |]; now rewrite IH.
Qed.

(** One round of the loop on a dictionary with a first item. *)
Lemma count_char_cons (k : char) (v : nat) (d : dict) (c : char) :
  count_char ((k, v) :: d) c =
  if char_eqb k c then (k, v + 1) :: d else (k, v) :: count_char d c.
Proof. unfold count_char. simpl. now destruct (char_eqb k c). Qed.

Lemma count_char_nil (c : char) : count_char [] c = [(c, 1)].
Proof. reflexivity. Qed.

(** A round adds one to the total of the counts. *)
Lemma sum_values_count_char (d : dict) (c : char) :
  sum (values (count_char d c)) = S (sum (values d)).
Proof.
  induction d as [| [k v] d IH]; [reflexivity |].
  rewrite count_char_cons.
  destruct (char_eqb k c).
  - unfold sum, values. simpl. lia.
  - unfold sum, values in *. simpl. rewrite IH. lia.
Qed.

(** A round leaves the keys as they are when the character is one of them,
    and puts the character last otherwise. *)
Lemma keys_count_char (d : dict) (c : char) :
  keys (count_char d c) = if mem c (keys d) then keys d else keys d ++ [c].
Proof.
  induction d as [| [k v] d IH]; [reflexivity |].
  rewrite count_char_cons.
  change (mem c (keys ((k, v) :: d))) with (char_eqb c k || mem c (keys d)).
  rewrite (char_eqb_sym c k).
  destruct (char_eqb k c); [reflexivity |].
  change (keys ((k, v) :: count_char d c)) with (k :: keys (count_char d c)).
  rewrite IH. simpl orb.
  now destruct (mem c (keys d)).
Qed.

(** A round keeps every count positive. *)
Lemma positive_count_char (d : dict) (c : char) :
  Forall (fun v => 1 <= v) (values d) ->
  Forall (fun v => 1 <= v) (values (count_char d c)).
Proof.
  induction d as [| [k v] d IH]; intros H.
  - repeat constructor.
  - rewrite count_char_cons.
    inversion H as [| ? ? Hv Hd]; subst.
    destruct (char_eqb k c); constructor; simpl; auto; lia.
Qed.

(** A round adds one to the count of its character and to no other. *)
Lemma dict_get_count_char (d : dict) (c x : char) :
  dict_get (count_char d c) x 0 =
  dict_get d x 0 + (if char_eqb c x then 1 else 0).
Proof.
  induction d as [| [k v] d IH].
  - simpl. now destruct (char_eqb c x).
  - rewrite count_char_cons.
    destruct (char_eqb k c) eqn:Ekc.
    + apply char_eqb_eq in Ekc; subst k. simpl.
      destruct (char_eqb c x); lia.
    + simpl. destruct (char_eqb k x) eqn:Ekx; [| exact IH].
      apply char_eqb_eq in Ekx; subst k. rewrite (char_eqb_sym c x), Ekc. lia.
Qed.

(** The loop, started from any dictionary. *)

Lemma sum_values_loop (text : str) (d : dict) :
  sum (values (fold_left count_char text d)) = len text + sum (values d).
Proof.
  revert d. induction text as [| c text IH]; intros d; [reflexivity |].
  simpl. rewrite IH, sum_values_count_char. lia.
Qed.

Lemma positive_loop (text : str) (d : dict) :
  Forall (fun v => 1 <= v) (values d) ->
  Forall (fun v => 1 <= v) (values (fold_left count_char text d)).
Proof.
  revert d. induction text as [| c text IH]; intros d H; [exact H |].
  simpl. apply IH. now apply positive_count_char.
Qed.

Lemma dict_get_loop (text : str) (d : dict) (x : char) :
  dict_get (fold_left count_char text d) x 0 =
  dict_get d x 0 + occurrences x text.
Proof.
  revert d. induction text as [| c text IH]; intros d; [simpl; lia |].
  simpl fold_left. rewrite IH, dict_get_count_char, occurrences_cons. lia.
Qed.

Lemma keys_loop (text : str) (d : dict) :
  keys (fold_left count_char text d) =
  keys d ++ filter (fun x => negb (mem x (keys d))) (first_occurrences text).
Proof.
  revert d. induction text as [| c text IH]; intros d.
  - simpl. now rewrite app_nil_r.
  - simpl fold_left. rewrite IH, keys_count_char.
    simpl first_occurrences. simpl filter.
    destruct (mem c (keys d)) eqn:Hc; simpl negb; cbv iota.
    + f_equal. rewrite filter_twice. apply filter_ext. intros x.
      destruct (mem x (keys d)) eqn:Hx; [now rewrite andb_false_r |].
      destruct (char_eqb x c) eqn:Exc; [| reflexivity].
      apply char_eqb_eq in Exc. congruence.
    + rewrite <- app_assoc. simpl app. do 2 f_equal.
      rewrite filter_twice. apply filter_ext. intros x.
      rewrite mem_app. simpl. rewrite orb_false_r.
      now destruct (mem x (keys d)), (char_eqb x c).
Qed.

(** [first_occurrences] lists exactly the characters of the text, each
    once. *)
Lemma first_occurrences_In (c : char) (s : str) :
  In c (first_occurrences s) <-> In c s.
Proof.
  induction s as [| a s IH]; [reflexivity |].
  simpl. rewrite filter_In, IH, negb_true_iff, char_eqb_neq.
  destruct (N.eq_dec a c); intuition congruence.
Qed.

Lemma first_occurrences_NoDup (s : str) : NoDup (first_occurrences s).
Proof.
  induction s as [| a s IH]; simpl; constructor.
  - rewrite filter_In, negb_true_iff, char_eqb_neq. intuition.
  - now apply NoDup_filter.
Qed.

End Frequency.

(** ** Running the program *)

Section Running.

Variable fs : filesystem.

(** [analyze_text] on a path that names a file: the statistics of its text,
    and nothing printed. *)
Lemma analyze_text_found (path text out : str) :
  fs path = Some (File text) ->
  analyze_text fs path out = (Returned (Some (analyze text)), out).
Proof.
  intros H. unfold analyze_text, path_exists, read_file, bind, ret.
  now rewrite H.
Qed.

(** [analyze_text] on a path that names nothing: the message, and [None]. *)
Lemma analyze_text_missing (path out : str) :
  fs path = None ->
  analyze_text fs path out =
  (Returned None, out ++ printed (lit "File not found: " ++ path)).
Proof.
  intros H. unfold analyze_text, path_exists, bind, ret, print, printed.
  now rewrite H.
Qed.

Lemma main_found (args : namespace) (text : str) :
  fs (file_path args) = Some (File text) ->
  run (main fs args) = after_analysis args (Some (analyze text)) [].
Proof.
  intros H. unfold run, main, bind at 1.
  now rewrite (analyze_text_found _ _ [] H).
Qed.

Lemma main_missing (args : namespace) :
  fs (file_path args) = None ->
  run (main fs args) =
  after_analysis args None (printed (lit "File not found: " ++ file_path args)).
Proof.
  intros H. unfold run, main, bind at 1.
  now rewrite (analyze_text_missing _ [] H).
Qed.

End Running.

(** ** The reports of an existing file *)

Section Printing.

Variable s : stats.

Lemma print_items_run (its : list (char * nat)) (out : str) :
  print_items its out = (Returned tt, out ++ List.concat (map item_line its)).
Proof.
  revert out. induction its as [| [c n] its IH]; intros out.
  - simpl. unfold ret. now rewrite app_nil_r.
  - simpl print_items. unfold bind, print. rewrite IH.
    simpl map. simpl List.concat. unfold item_line at 2, printed. simpl fst. simpl snd.
    now rewrite <- !app_assoc.
Qed.

Lemma print_lines_run (out : str) :
  print_lines (Some s) out = (Returned tt, out ++ lines_report s).
Proof. reflexivity. Qed.

Lemma print_chars_run (out : str) :
  print_chars (Some s) out = (Returned tt, out ++ chars_report s).
Proof. reflexivity. Qed.

Lemma print_empty_lines_run (out : str) :
  print_empty_lines (Some s) out = (Returned tt, out ++ empty_lines_report s).
Proof. reflexivity. Qed.

Lemma print_freq_run (out : str) :
  print_freq (Some s) out = (Returned tt, out ++ freq_report s).
Proof.
  unfold print_freq, bind, print, subscript, ret. rewrite print_items_run.
  unfold freq_report, printed. now rewrite <- !app_assoc.
Qed.

Lemma after_analysis_found (args : namespace) :
  after_analysis args (Some s) [] = (Returned tt, selected_output args s).
Proof.
  destruct args as [p l c e f]. unfold after_analysis, selected_output.
  cbn [count_lines count_chars count_empty_lines count_freq].
  destruct l, c, e, f; cbn [when any existsb orb negb]; unfold bind, ret;
    repeat (first [ rewrite print_lines_run | rewrite print_chars_run
                  | rewrite print_empty_lines_run | rewrite print_freq_run ];
            cbv beta iota);
    rewrite ?app_nil_r, ?app_nil_l, <- ?app_assoc; reflexivity.
Qed.

End Printing.

(** ** The fields of the record *)

Lemma chars_analyze (text : str) : chars (analyze text) = len text.
Proof. reflexivity. Qed.

Lemma lines_analyze (text : str) :
  lines (analyze text) = str_count text [NL] + 1.
Proof. reflexivity. Qed.

Lemma empty_lines_analyze (text : str) :
  empty_lines (analyze text) = str_count text [NL; NL].
Proof. reflexivity. Qed.

Lemma freq_analyze (text : str) :
  freq (analyze text) = fold_left count_char text [].
Proof. reflexivity. Qed.

(** ** The frequency table and the whole record *)

Lemma keys_freq_analyze (text : str) :
  keys (freq (analyze text)) = first_occurrences text.
Proof.
  rewrite freq_analyze, keys_loop. simpl.
  induction (first_occurrences text) as [| a l IH]; simpl; congruence.
Qed.

(** A dictionary is given by its keys and what [get] returns for them. *)
Lemma dict_items_by_keys (d : dict) :
  NoDup (keys d) ->
  items d = map (fun k => (k, dict_get d k 0)) (keys d).
Proof.
  unfold items. induction d as [| [k v] d IH]; intros Hnd; [reflexivity |].
  change (keys ((k, v) :: d)) with (k :: keys d) in *.
  apply NoDup_cons_iff in Hnd. destruct Hnd as [Hk Hd].
  simpl map. simpl dict_get.
  rewrite (proj2 (char_eqb_eq k k) eq_refl).
  f_equal. rewrite (IH Hd) at 1.
  apply map_ext_in. intros x Hx.
  destruct (char_eqb k x) eqn:E; [| reflexivity].
  apply char_eqb_eq in E. subst x. contradiction.
Qed.

(** The items of the frequency table of a text. *)
Lemma items_freq_analyze (text : str) :
  items (freq (analyze text)) = counted_characters text.
Proof.
  rewrite dict_items_by_keys.
  - rewrite keys_freq_analyze. unfold counted_characters.
    apply map_ext. intros c.
    rewrite freq_analyze, dict_get_loop. reflexivity.
  - rewrite keys_freq_analyze. apply first_occurrences_NoDup.
Qed.

(** The program's record of a text is its reference record. *)
Lemma analyze_reference (text : str) :
  analyze text = reference_record text.
Proof.
  unfold reference_record.
  rewrite <- (items_freq_analyze text).
  rewrite <- (str_count_double text), <- (str_count_single NL text).
  reflexivity.
Qed.

(** * The claims *)

(** C1 (as the code behaves): when the path names nothing, every run prints
    [File not found: <file_path>] and then ends with an uncaught [TypeError],
    raised by the first subscript of the [None] that [analyze_text] returned;
    with [--count-freq] as the only flag the header [Character frequency:] is
    printed as well before the exception. No such run terminates normally. *)
Theorem main_missing_file_raises (fs : filesystem) (args : namespace) :
  fs (file_path args) = None ->
  run (main fs args) =
    (Raised TypeError,
     printed (lit "File not found: " ++ file_path args) ++
     (if negb (count_lines args) && negb (count_chars args)
         && negb (count_empty_lines args) && count_freq args
      then printed (lit "Character frequency:")
      else []))
  /\ terminates_normally (run (main fs args)) = false.
Proof.
  intros H. rewrite (main_missing fs args H).
  destruct args as [p l c e f]. unfold after_analysis. simpl.
  destruct l, c, e, f; split; try reflexivity;
    cbv [bind when print_lines print_chars print_empty_lines print_freq
         subscript raise ret print negb any existsb orb printed
         terminates_normally fst];
    rewrite ?app_nil_r, <- ?app_assoc; reflexivity.
Qed.

Lemma main_missing_file_raises_witness :
  run (main no_files args_plain) =
    (Raised TypeError, printed (lit "File not found: data.txt"))
  /\ terminates_normally (run (main no_files args_plain)) = false.
Proof.
  destruct (main_missing_file_raises no_files args_plain eq_refl) as [Hrun Hend].
  split; [| exact Hend].
  rewrite Hrun. reflexivity.
Defined.

(** C2 (amended): with [--count-chars --count-lines] on a file holding
    ["hi\\nworld"] the output is exactly two lines, [Number of lines: 2] first
    and [Number of characters: 8] second: the main block tests [count_lines]
    before [count_chars], whatever the order of the flags on the command
    line. The run terminates normally. *)
Theorem main_chars_lines_hi_world (fs : filesystem) (args : namespace) :
  fs (file_path args) = Some (File hi_world) ->
  count_chars args = true ->
  count_lines args = true ->
  count_empty_lines args = false ->
  count_freq args = false ->
  run (main fs args) =
    (Returned tt,
     printed (lit "Number of lines: 2") ++
     printed (lit "Number of characters: 8")).
Proof.
  intros Hfile Hc Hl He Hf.
  rewrite (main_found fs args hi_world Hfile).
  unfold after_analysis. rewrite Hc, Hl, He, Hf.
  reflexivity.
Qed.

Lemma main_chars_lines_hi_world_witness :
  run (main (single_file hi_world) args_chars_lines) =
    (Returned tt,
     printed (lit "Number of lines: 2") ++
     printed (lit "Number of characters: 8")).
Proof.
  apply (main_chars_lines_hi_world (single_file hi_world) args_chars_lines);
    reflexivity.
Defined.

(** C2 as stated fails: on that input the output is not
    [Number of characters: 8] followed by [Number of lines: 2]. *)
Lemma main_chars_lines_not_chars_first :
  run (main (single_file hi_world) args_chars_lines) <>
    (Returned tt,
     printed (lit "Number of characters: 8") ++
     printed (lit "Number of lines: 2")).
Proof.
  vm_compute. intros H. discriminate H.
Qed.

(** C3: for every text the [empty_lines] field is the non-overlapping count of
    two consecutive newlines, where the scan resumes after the second newline
    of a match; on ["a\\n\\n\\nb"] it is 1. *)
Theorem empty_lines_non_overlapping :
  (forall text : str, empty_lines (analyze text) = double_newlines text)
  /\ empty_lines (analyze a_nnn_b) = 1.
Proof.
  split; [| reflexivity].
  intros text. rewrite empty_lines_analyze. apply str_count_double.
Qed.

(** C4: for every text the [lines] field is the number of newline characters
    plus one; so it is 1 for a text without a newline. *)
Theorem lines_is_newlines_plus_one (text : str) :
  lines (analyze text) = occurrences NL text + 1
  /\ (~ In NL text -> lines (analyze text) = 1).
Proof.
  assert (H : lines (analyze text) = occurrences NL text + 1).
  { now rewrite lines_analyze, str_count_single. }
  split; [exact H |].
  intros Hnot. rewrite H.
  unfold occurrences. now rewrite (proj1 (count_occ_not_In N.eq_dec text NL) Hnot).
Qed.

Lemma lines_is_newlines_plus_one_witness :
  ~ In NL (lit "abc") /\ lines (analyze (lit "abc")) = 1.
Proof.
  assert (Hnot : ~ In NL (lit "abc")).
  { cbv. intuition discriminate. }
  split; [exact Hnot |].
  exact (proj2 (lines_is_newlines_plus_one (lit "abc")) Hnot).
Defined.

(** C5: for every text the [chars] field is the length of the text in code
    points. *)
Theorem chars_is_length (text : str) :
  chars (analyze text) = List.length text.
Proof. apply chars_analyze. Qed.

(** C6: for every text the [chars] field is the sum of the values of [freq];
    the keys of [freq] are exactly the characters of the text, each key once,
    and they come in the order in which the characters first occur. *)
Theorem freq_sum_cover_order (text : str) :
  chars (analyze text) = sum (values (freq (analyze text)))
  /\ (forall c : char, In c text <-> In c (keys (freq (analyze text))))
  /\ NoDup (keys (freq (analyze text)))
  /\ keys (freq (analyze text)) = first_occurrences text.
Proof.
  assert (Hkeys : keys (freq (analyze text)) = first_occurrences text).
  { rewrite freq_analyze, keys_loop. simpl.
    induction (first_occurrences text) as [| a l IH]; simpl; congruence. }
  repeat split.
  - rewrite freq_analyze, chars_analyze, sum_values_loop. unfold sum; simpl. lia.
  - rewrite Hkeys. apply first_occurrences_In.
  - rewrite Hkeys. apply first_occurrences_In.
  - rewrite Hkeys. apply first_occurrences_NoDup.
  - exact Hkeys.
Qed.

(** C7: the record of the empty text. *)
Theorem analyze_empty :
  analyze [] = {| chars := 0; lines := 1; empty_lines := 0; freq := [] |}.
Proof. reflexivity. Qed.

(** C8: two runs of [analyze_text] on files holding the same text both
    return, print nothing, and return the same record, the items of [freq] in
    the same order: each run returns the reference record of the text, whose
    frequency items are the distinct characters in first-occurrence order
    with their numbers of occurrences. Nothing else enters the record: not
    the path, not the rest of the file system, not what was printed
    before. *)
Theorem analyze_text_deterministic
    (fs1 fs2 : filesystem) (path1 path2 out1 out2 text : str) :
  fs1 path1 = Some (File text) ->
  fs2 path2 = Some (File text) ->
  analyze_text fs1 path1 out1 = (Returned (Some (reference_record text)), out1)
  /\ analyze_text fs2 path2 out2 = (Returned (Some (reference_record text)), out2)
  /\ fst (analyze_text fs1 path1 out1) = fst (analyze_text fs2 path2 out2)
  /\ (forall r1 r2 : stats,
        fst (analyze_text fs1 path1 out1) = Returned (Some r1) ->
        fst (analyze_text fs2 path2 out2) = Returned (Some r2) ->
        r1 = r2 /\ items (freq r1) = items (freq r2)
        /\ items (freq r1) = counted_characters text).
Proof.
  intros H1 H2.
  rewrite (analyze_text_found fs1 path1 text out1 H1).
  rewrite (analyze_text_found fs2 path2 text out2 H2).
  rewrite analyze_reference.
  repeat split.
  - simpl in *. congruence.
  - simpl in *. congruence.
  - simpl in H. injection H as <-. reflexivity.
Qed.

Lemma analyze_text_deterministic_witness :
  fst (analyze_text (single_file hi_world) (lit "data.txt") []) =
  fst (analyze_text (fun _ => Some (File hi_world)) (lit "copy.txt")
         (printed (lit "earlier output"))).
Proof.
  apply (analyze_text_deterministic
           (single_file hi_world) (fun _ => Some (File hi_world))
           (lit "data.txt") (lit "copy.txt")
           [] (printed (lit "earlier output")) hi_world);
    reflexivity.
Defined.

(** C9: for every text, every value stored in [freq] is at least 1. *)
Theorem freq_values_positive (text : str) :
  Forall (fun v => 1 <= v) (values (freq (analyze text))).
Proof.
  rewrite freq_analyze. apply positive_loop. constructor.
Qed.

(** C10: for every text, twice [empty_lines] is at most [lines - 1] (and
    [lines] is at least 1, so nothing is lost in the subtraction), and [lines]
    is at most [chars + 1]. *)
Theorem counts_related (text : str) :
  2 * empty_lines (analyze text) <= lines (analyze text) - 1
  /\ 1 <= lines (analyze text)
  /\ lines (analyze text) <= chars (analyze text) + 1.
Proof.
  pose proof (proj1 (double_newlines_bound text)) as Hd.
  pose proof (occurrences_le_len NL text) as Hn.
  rewrite lines_analyze, empty_lines_analyze, chars_analyze.
  rewrite str_count_single, str_count_double.
  lia.
Qed.

(** * Further properties *)

(** X1: when the path names a file, the run terminates normally and prints
    the reports that the flags select, in the fixed order lines, characters,
    empty lines, frequency table; with no flag it prints all four in the order
    characters, lines, empty lines, frequency table. *)
Theorem main_found_output (fs : filesystem) (args : namespace) (text : str) :
  fs (file_path args) = Some (File text) ->
  run (main fs args) = (Returned tt, selected_output args (analyze text)).
Proof.
  intros H. rewrite (main_found fs args text H). apply after_analysis_found.
Qed.

Lemma main_found_output_witness :
  run (main (single_file a_nnn_b) args_plain) =
    (Returned tt, selected_output args_plain (analyze a_nnn_b)).
Proof.
  apply (main_found_output (single_file a_nnn_b) args_plain a_nnn_b).
  reflexivity.
Defined.

(** X2: for every text and character, the count that [freq] holds for the
    character (0 when it is no key) is its number of occurrences in the
    text. *)
Theorem freq_counts_occurrences (text : str) (c : char) :
  dict_get (freq (analyze text)) c 0 = occurrences c text.
Proof.
  rewrite freq_analyze, dict_get_loop. reflexivity.
Qed.

(** The record of ["a\\n\\nb"]. *)
Example analyze_a_nn_b :
  analyze (lit "a" ++ [NL; NL] ++ lit "b") =
    {| chars := 4; lines := 3; empty_lines := 1;
       freq := [(ord "a", 1); (NL, 2); (ord "b", 1)] |}.
Proof. reflexivity. Qed.

(** The record of ["abc"], a text without a newline. *)
Example analyze_abc :
  analyze (lit "abc") =
    {| chars := 3; lines := 1; empty_lines := 0;
       freq := [(ord "a", 1); (ord "b", 1); (ord "c", 1)] |}.
Proof. reflexivity. Qed.

(** ** Helper facts for the further properties *)

(** With [None] for the statistics, the printing part of the main block
    raises [TypeError], whatever the flags and whatever was printed before. *)
Lemma after_analysis_none (args : namespace) (out : str) :
  fst (after_analysis args None out) = Raised TypeError.
Proof.
  destruct args as [p l c e f]. unfold after_analysis. simpl.
  destruct l, c, e, f; reflexivity.
Qed.

(** [open] on a directory: the exception leaves the main block at once. *)
Lemma main_directory (fs : filesystem) (args : namespace) :
  fs (file_path args) = Some Dir ->
  run (main fs args) = (Raised IsADirectoryError, []).
Proof.
  intros H. unfold run, main, bind, analyze_text, path_exists, read_file, raise.
  now rewrite H.
Qed.

(** [open] or [read] rejecting what the path names: the exception leaves the
    main block at once as well. *)
Lemma main_unreadable (fs : filesystem) (args : namespace) (e : exn) :
  fs (file_path args) = Some (Unreadable e) ->
  run (main fs args) = (Raised e, []).
Proof.
  intros H. unfold run, main, bind, analyze_text, path_exists, read_file, raise.
  now rewrite H.
Qed.

(** ** Further properties, continued *)

(** X3: for every text, the items of [freq], in iteration order, are the
    distinct characters of the text in first-occurrence order, each with its
    number of occurrences in the text. *)
Theorem freq_items_counted (text : str) :
  items (freq (analyze text)) =
  map (fun c => (c, occurrences c text)) (first_occurrences text)
  /\ NoDup (first_occurrences text)
  /\ (forall c : char, In c (first_occurrences text) <-> In c text).
Proof.
  split; [apply items_freq_analyze |].
  split; [apply first_occurrences_NoDup |].
  intros c. apply first_occurrences_In.
Qed.

(** X4: when the path names a directory, [os.path.exists] holds and [open]
    raises: the run prints nothing, not even the file-not-found message, and
    ends with an uncaught [IsADirectoryError], whatever the flags. *)
Theorem main_directory_raises (fs : filesystem) (args : namespace) :
  fs (file_path args) = Some Dir ->
  run (main fs args) = (Raised IsADirectoryError, [])
  /\ terminates_normally (run (main fs args)) = false.
Proof.
  intros H. rewrite (main_directory fs args H). split; reflexivity.
Qed.

Lemma main_directory_raises_witness :
  run (main only_directories args_all) = (Raised IsADirectoryError, [])
  /\ terminates_normally (run (main only_directories args_all)) = false.
Proof.
  apply (main_directory_raises only_directories args_all). reflexivity.
Defined.

(** X5: what the path names decides how a run ends, whatever the flags: a
    file that can be read as text, normally; nothing, with [TypeError]; a
    directory, with [IsADirectoryError]; anything else that exists, with the
    exception that [open] or [read] raises for it. So a run terminates
    normally exactly when the path names a file that is read as text. *)
Theorem main_outcome_by_path (fs : filesystem) (args : namespace) :
  fst (run (main fs args)) =
    match fs (file_path args) with
    | Some (File _) => Returned tt
    | Some Dir => Raised IsADirectoryError
    | Some (Unreadable e) => Raised e
    | None => Raised TypeError
    end
  /\ (terminates_normally (run (main fs args)) = true
      <-> exists text : str, fs (file_path args) = Some (File text)).
Proof.
  unfold terminates_normally.
  destruct (fs (file_path args)) as [[text | | e] |] eqn:H.
  - rewrite (main_found fs args text H), after_analysis_found.
    split; [reflexivity |].
    split; [intros _; now exists text | reflexivity].
  - rewrite (main_directory fs args H).
    split; [reflexivity |].
    split; [discriminate | intros [text Ht]; discriminate Ht].
  - rewrite (main_unreadable fs args e H).
    split; [reflexivity |].
    split; [discriminate | intros [text Ht]; discriminate Ht].
  - rewrite (main_missing fs args H), after_analysis_none.
    split; [reflexivity |].
    split; [discriminate | intros [text Ht]; discriminate Ht].
Qed.

(** X6: on an existing file, giving all four flags does not print what giving
    no flag prints: with the flags the line count comes first, without them
    the character count does. *)
Theorem all_flags_differ_from_none
    (fs : filesystem) (args args' : namespace) (text : str) :
  fs (file_path args) = Some (File text) ->
  fs (file_path args') = Some (File text) ->
  count_lines args = true -> count_chars args = true ->
  count_empty_lines args = true -> count_freq args = true ->
  count_lines args' = false -> count_chars args' = false ->
  count_empty_lines args' = false -> count_freq args' = false ->
  snd (run (main fs args)) =
    lines_report (analyze text) ++ chars_report (analyze text) ++
    empty_lines_report (analyze text) ++ freq_report (analyze text)
  /\ snd (run (main fs args')) =
    chars_report (analyze text) ++ lines_report (analyze text) ++
    empty_lines_report (analyze text) ++ freq_report (analyze text)
  /\ snd (run (main fs args)) <> snd (run (main fs args')).
Proof.
  intros H H' Hl Hc He Hf Hl' Hc' He' Hf'.
  rewrite (main_found fs args text H), (main_found fs args' text H').
  rewrite !after_analysis_found. unfold selected_output.
  rewrite Hl, Hc, He, Hf, Hl', Hc', He', Hf'. simpl snd.
  cbn [any existsb orb negb]. rewrite !app_nil_r. cbn [app].
  repeat split.
  unfold lines_report, chars_report, printed. simpl. intros E. discriminate E.
Qed.

Lemma all_flags_differ_from_none_witness :
  snd (run (main (single_file hi_world) args_all)) <>
  snd (run (main (single_file hi_world) args_plain)).
Proof.
  apply (all_flags_differ_from_none
           (single_file hi_world) args_all args_plain hi_world);
    reflexivity.
Defined.

(** ** Concatenation, newline runs and reordering *)

Section Composition.

Lemma occurrences_app (c : char) (s t : str) :
  occurrences c (s ++ t) = occurrences c s + occurrences c t.
Proof. apply count_occ_app. Qed.

(** The unfolding of [double_newlines] on a text of two characters or more. *)
Lemma double_newlines_cons2 (a b : char) (r : str) :
  double_newlines (a :: b :: r) =
  if char_eqb a NL && char_eqb b NL
  then S (double_newlines r)
  else double_newlines (b :: r).
Proof. reflexivity. Qed.

Lemma adjacent_newlines_cons2 (a b : char) (r : str) :
  adjacent_newlines (a :: b :: r) =
  (if char_eqb a NL && char_eqb b NL then 1 else 0) + adjacent_newlines (b :: r).
Proof. reflexivity. Qed.

(** Dropping the first character changes the count by one at most. *)
Lemma double_newlines_tl (s : str) :
  double_newlines (tl s) <= double_newlines s <= double_newlines (tl s) + 1.
Proof.
  induction s as [| a s IH]; [simpl; lia |].
  destruct s as [| b r]; [simpl; lia |].
  rewrite double_newlines_cons2. simpl tl in *.
  destruct (char_eqb a NL && char_eqb b NL); lia.
Qed.

Lemma adjacent_newlines_tl (s : str) :
  adjacent_newlines (tl s) <= adjacent_newlines s <= adjacent_newlines (tl s) + 1.
Proof.
  destruct s as [| a [| b r]]; [simpl; lia | simpl; lia |].
  rewrite adjacent_newlines_cons2. simpl tl.
  destruct (char_eqb a NL && char_eqb b NL); lia.
Qed.

(** Joining two texts keeps the pairs counted in each and can add one, where
    a newline that ends the first text meets one that starts the second. *)
Lemma double_newlines_app (s : str) :
  (forall t, double_newlines s + double_newlines t <= double_newlines (s ++ t)
             <= double_newlines s + double_newlines t + 1)
  /\ (forall t, double_newlines (tl s) + double_newlines t
                <= double_newlines (tl s ++ t)
                <= double_newlines (tl s) + double_newlines t + 1).
Proof.
  induction s as [| a s [IH0 IH1]].
  - split; intros t; simpl; lia.
  - split; [| exact IH0]. intros t.
    destruct s as [| b r].
    + pose proof (double_newlines_tl (a :: t)) as H. simpl tl in H.
      simpl app. change (double_newlines [a]) with 0. lia.
    + change ((a :: b :: r) ++ t) with (a :: b :: (r ++ t)).
      rewrite !double_newlines_cons2.
      simpl tl in IH1. specialize (IH0 t). specialize (IH1 t).
      change ((b :: r) ++ t) with (b :: (r ++ t)) in IH0.
      destruct (char_eqb a NL && char_eqb b NL); lia.
Qed.

(** The counted pairs against the places with two newlines side by side. *)
Lemma double_newlines_adjacent (s : str) :
  (double_newlines s <= adjacent_newlines s <= 2 * double_newlines s)
  /\ (double_newlines (tl s) <= adjacent_newlines (tl s)
      <= 2 * double_newlines (tl s)).
Proof.
  induction s as [| a s [IH0 IH1]]; [simpl; lia |].
  split; [| exact IH0].
  destruct s as [| b r]; [simpl; lia |].
  rewrite double_newlines_cons2, adjacent_newlines_cons2.
  pose proof (adjacent_newlines_tl (b :: r)) as Ht.
  simpl tl in *.
  destruct (char_eqb a NL && char_eqb b NL); lia.
Qed.

(** A run of newlines. *)
Lemma double_newlines_repeat (n : nat) :
  double_newlines (repeat NL n) = Nat.div2 n
  /\ double_newlines (repeat NL (S n)) = Nat.div2 (S n).
Proof.
  induction n as [| n [IH0 IH1]]; [now split |].
  split; [exact IH1 |].
  change (repeat NL (S (S n))) with (NL :: NL :: repeat NL n).
  rewrite double_newlines_cons2. simpl. now rewrite IH0.
Qed.

Lemma adjacent_newlines_repeat (n : nat) :
  adjacent_newlines (repeat NL (S n)) = n.
Proof.
  induction n as [| n IH]; [reflexivity |].
  change (repeat NL (S (S n))) with (NL :: NL :: repeat NL n).
  rewrite adjacent_newlines_cons2.
  change (NL :: repeat NL n) with (repeat NL (S n)). rewrite IH. reflexivity.
Qed.

Lemma count_char_repeat (n k : nat) :
  fold_left count_char (repeat NL n) [(NL, k)] = [(NL, k + n)].
Proof.
  revert k. induction n as [| n IH]; intros k.
  - simpl. now rewrite Nat.add_0_r.
  - simpl repeat. simpl fold_left. rewrite count_char_cons.
    change (char_eqb NL NL) with true. cbv iota.
    rewrite IH. do 2 f_equal. lia.
Qed.

End Composition.

(** X7: the record of a concatenation. The character counts add up, in total
    and for each character; the line counts add up less one; the empty-line
    count is the sum of the two or one more; and the keys of the frequency
    table are those of the first text followed by the new ones of the second,
    in their order. *)
Theorem analyze_app (s t : str) :
  chars (analyze (s ++ t)) = chars (analyze s) + chars (analyze t)
  /\ lines (analyze (s ++ t)) + 1 = lines (analyze s) + lines (analyze t)
  /\ empty_lines (analyze s) + empty_lines (analyze t)
       <= empty_lines (analyze (s ++ t))
       <= empty_lines (analyze s) + empty_lines (analyze t) + 1
  /\ (forall c : char,
        dict_get (freq (analyze (s ++ t))) c 0 =
        dict_get (freq (analyze s)) c 0 + dict_get (freq (analyze t)) c 0)
  /\ keys (freq (analyze (s ++ t))) =
       keys (freq (analyze s)) ++
       filter (fun x => negb (mem x (keys (freq (analyze s)))))
              (keys (freq (analyze t))).
Proof.
  split; [| split; [| split; [| split]]].
  - rewrite !chars_analyze. unfold len. apply length_app.
  - rewrite !lines_analyze, !str_count_single, occurrences_app. lia.
  - rewrite !empty_lines_analyze, !str_count_double.
    apply (proj1 (double_newlines_app s) t).
  - intros c. rewrite !freq_analyze, !dict_get_loop, occurrences_app.
    simpl. lia.
  - rewrite (keys_freq_analyze t).
    rewrite (freq_analyze (s ++ t)), fold_left_app, keys_loop.
    now rewrite <- freq_analyze.
Qed.

(** X8: for every text, [empty_lines] is at most the number of places where
    two newlines stand side by side and at least half of it; so it is 0
    exactly when no two newlines are adjacent. *)
Theorem empty_lines_against_adjacent (text : str) :
  empty_lines (analyze text) <= adjacent_newlines text
  /\ adjacent_newlines text <= 2 * empty_lines (analyze text)
  /\ (empty_lines (analyze text) = 0 <-> adjacent_newlines text = 0).
Proof.
  rewrite empty_lines_analyze, str_count_double.
  pose proof (proj1 (double_newlines_adjacent text)) as H. lia.
Qed.

(** X9: the record of a text that is [n + 1] newlines and nothing else: [n + 1]
    characters, [n + 2] lines, one key in the table; [empty_lines] is
    [(n + 1) / 2] rounded down, while the newlines are adjacent at [n]
    places. *)
Theorem analyze_newline_run (n : nat) :
  analyze (repeat NL (S n)) =
    {| chars := S n; lines := S n + 1;
       empty_lines := Nat.div2 (S n); freq := [(NL, S n)] |}
  /\ adjacent_newlines (repeat NL (S n)) = n.
Proof.
  split; [| apply adjacent_newlines_repeat].
  unfold analyze. f_equal.
  - unfold len. apply repeat_length.
  - rewrite str_count_single. unfold occurrences.
    now rewrite count_occ_repeat_eq.
  - rewrite str_count_double. apply (proj2 (double_newlines_repeat n)).
  - simpl repeat. simpl fold_left. rewrite count_char_nil.
    apply (count_char_repeat n 1).
Qed.

(** X10: reordering the characters of a text changes neither [chars], nor
    [lines], nor the count that [freq] holds for any character. *)
Theorem analyze_permutation (s t : str) :
  Permutation s t ->
  chars (analyze s) = chars (analyze t)
  /\ lines (analyze s) = lines (analyze t)
  /\ (forall c : char,
        dict_get (freq (analyze s)) c 0 = dict_get (freq (analyze t)) c 0).
Proof.
  intros H.
  pose proof (proj1 (Permutation_count_occ N.eq_dec s t) H) as Hc.
  split; [| split].
  - rewrite !chars_analyze. unfold len. now apply Permutation_length.
  - rewrite !lines_analyze, !str_count_single. unfold occurrences.
    now rewrite Hc.
  - intros c. rewrite !freq_analyze, !dict_get_loop. unfold occurrences.
    now rewrite Hc.
Qed.

Lemma analyze_permutation_witness :
  chars (analyze (lit "ab")) = chars (analyze (lit "ba"))
  /\ lines (analyze (lit "ab")) = lines (analyze (lit "ba"))
  /\ (forall c : char,
        dict_get (freq (analyze (lit "ab"))) c 0 =
        dict_get (freq (analyze (lit "ba"))) c 0).
Proof.
  apply (analyze_permutation (lit "ab") (lit "ba")).
  apply perm_swap.
Defined.

(** ** Newlines in the printed frequency table *)

Section TableNewlines.

(** The decimal digits of a number hold no newline. *)
Lemma digits_no_newline (u : Decimal.uint) :
  occurrences NL (lit (NilEmpty.string_of_uint u)) = 0.
Proof.
  induction u; simpl NilEmpty.string_of_uint; simpl lit;
    [reflexivity | rewrite occurrences_cons, IHu; reflexivity ..].
Qed.

Lemma format_int_no_newline (n : nat) : occurrences NL (format_int n) = 0.
Proof. apply digits_no_newline. Qed.

(** The line of an item ends in a newline, and holds a second one when the
    key is the newline character. *)
Lemma item_line_newlines (c : char) (n : nat) :
  occurrences NL (item_line (c, n)) = (if char_eqb c NL then 1 else 0) + 1.
Proof.
  unfold item_line, printed. cbn [fst snd].
  rewrite !occurrences_app, format_int_no_newline.
  rewrite (occurrences_cons NL c []).
  change (occurrences NL (lit "'")) with 0.
  change (occurrences NL (lit "': ")) with 0.
  change (occurrences NL []) with 0.
  change (occurrences NL [NL]) with 1.
  lia.
Qed.

Lemma item_lines_newlines (d : dict) :
  occurrences NL (List.concat (map item_line d)) =
  List.length d + occurrences NL (keys d).
Proof.
  induction d as [| [k v] d IH]; [reflexivity |].
  change (List.concat (map item_line ((k, v) :: d)))
    with (item_line (k, v) ++ List.concat (map item_line d)).
  rewrite occurrences_app, item_line_newlines, IH.
  change (keys ((k, v) :: d)) with (k :: keys d).
  rewrite occurrences_cons. simpl List.length. lia.
Qed.

Lemma occurrences_filter_neq (c a : char) (l : list char) :
  occurrences c (filter (fun x => negb (char_eqb x a)) l) =
  if char_eqb a c then 0 else occurrences c l.
Proof.
  induction l as [| x l IH].
  - simpl. now destruct (char_eqb a c).
  - simpl filter. destruct (char_eqb x a) eqn:Exa; simpl negb; cbv iota.
    + rewrite IH, occurrences_cons.
      apply char_eqb_eq in Exa. subst x.
      now destruct (char_eqb a c).
    + rewrite !occurrences_cons, IH.
      destruct (char_eqb a c) eqn:Eac; [| reflexivity].
      apply char_eqb_eq in Eac. subst c. now rewrite Exa.
Qed.

(** A character of the text stands once among its first occurrences. *)
Lemma occurrences_first_occurrences (c : char) (s : str) :
  occurrences c (first_occurrences s) = if mem c s then 1 else 0.
Proof.
  induction s as [| a s IH]; [reflexivity |].
  simpl first_occurrences.
  rewrite occurrences_cons, occurrences_filter_neq.
  change (mem c (a :: s)) with (char_eqb c a || mem c s).
  rewrite (char_eqb_sym c a).
  destruct (char_eqb a c); simpl; [reflexivity | exact IH].
Qed.

End TableNewlines.

(** X11: with [--count-freq] alone on an existing file the program prints the
    header and one item per distinct character of the text; the output holds
    one newline per print and one more when the text contains a newline,
    since the item of the newline character is printed with the raw character
    between the quotes and so spans two lines. *)
Theorem freq_table_newlines (fs : filesystem) (args : namespace) (text : str) :
  fs (file_path args) = Some (File text) ->
  count_lines args = false -> count_chars args = false ->
  count_empty_lines args = false -> count_freq args = true ->
  snd (run (main fs args)) =
    printed (lit "Character frequency:") ++
    List.concat (map item_line (counted_characters text))
  /\ occurrences NL (snd (run (main fs args))) =
     1 + List.length (first_occurrences text)
     + (if mem NL text then 1 else 0).
Proof.
  intros H Hl Hc He Hf.
  rewrite (main_found fs args text H), after_analysis_found.
  unfold selected_output. rewrite Hl, Hc, He, Hf.
  cbn [any existsb orb negb snd app]. rewrite app_nil_r.
  unfold freq_report.
  rewrite items_freq_analyze. split; [reflexivity |].
  rewrite occurrences_app, item_lines_newlines.
  unfold counted_characters at 1. rewrite length_map.
  replace (keys (counted_characters text)) with (first_occurrences text).
  - rewrite occurrences_first_occurrences.
    change (occurrences NL (printed (lit "Character frequency:"))) with 1. lia.
  - unfold keys, counted_characters. rewrite map_map. simpl.
    now rewrite map_id.
Qed.

Lemma freq_table_newlines_witness :
  occurrences NL (snd (run (main (single_file hi_world) args_freq))) =
  1 + List.length (first_occurrences hi_world) + 1.
Proof.
  apply (freq_table_newlines (single_file hi_world) args_freq hi_world);
    reflexivity.
Defined.
